(** * Admin dashboard (src/pages/Admin.tsx): a shallow embedding

    The page keeps six pieces of React state, runs two effects on mount
    (the access guard and the data loader), derives a filtered user list
    and four counters on every render, and offers two write actions
    (block a user, resolve an infraction).

    Backend calls are modelled by the value their promise settles with,
    state setters by updates of a [View] record, and toasts, navigation
    and console output by an append-only list of [Effect]s. *)

From Stdlib Require Import String Ascii List Bool Arith Lia.
Import ListNotations.
Open Scope string_scope.

(* ------------------------------------------------------------------ *)
(** ** Data model (the two interfaces at the top of the file) *)

Inductive UserType := client | artist | admin.
Inductive UserStatus := active | inactive.
Inductive InfractionStatus := pending | resolved.

(** [interface User].  The page reads [full_name] and [email] through
    [?.] and [||], so both may be null at run time: [None] stands for
    null/undefined. *)
Record User := mkUser {
  id : string;
  email : option string;
  full_name : option string;
  user_type : UserType;
  status : UserStatus;
  created_at : string
}.

(** The joined [{ full_name, email }] object of an infraction. *)
Record PersonRef := mkPersonRef {
  ref_full_name : option string;
  ref_email : option string
}.

(** [interface Infraction]. *)
Record Infraction := mkInfraction {
  inf_id : string;
  inf_user_id : string;
  reported_user_id : string;
  description : string;
  detailed_description : option string;
  inf_status : InfractionStatus;
  inf_created_at : string;
  reported_user : option PersonRef;
  reporter : option PersonRef
}.

Definition UserType_eqb (a b : UserType) : bool :=
  match a, b with
  | client, client | artist, artist | admin, admin => true
  | _, _ => false
  end.

Definition UserStatus_eqb (a b : UserStatus) : bool :=
  match a, b with
  | active, active | inactive, inactive => true
  | _, _ => false
  end.

Definition InfractionStatus_eqb (a b : InfractionStatus) : bool :=
  match a, b with
  | pending, pending | resolved, resolved => true
  | _, _ => false
  end.

(** [{ ...user, status: s }] *)
Definition with_status (u : User) (s : UserStatus) : User :=
  {| id := id u; email := email u; full_name := full_name u;
     user_type := user_type u; status := s; created_at := created_at u |}.

(** [{ ...infraction, status: s }] *)
Definition with_inf_status (i : Infraction) (s : InfractionStatus) : Infraction :=
  {| inf_id := inf_id i; inf_user_id := inf_user_id i;
     reported_user_id := reported_user_id i; description := description i;
     detailed_description := detailed_description i; inf_status := s;
     inf_created_at := inf_created_at i; reported_user := reported_user i;
     reporter := reporter i |}.

(* ------------------------------------------------------------------ *)
(** ** JavaScript string and truthiness helpers *)

Module JS.

(** [t] is a prefix of [s]. *)
Fixpoint startsWith (s t : string) : bool :=
  match t, s with
  | EmptyString, _ => true
  | String c t', String d s' => Ascii.eqb c d && startsWith s' t'
  | String _ _, EmptyString => false
  end.

(** [s.includes(t)]: [t] occurs in [s] at some position. *)
Fixpoint includes (s t : string) : bool :=
  startsWith s t ||
  match s with
  | EmptyString => false
  | String _ s' => includes s' t
  end.

(** [o?.f()]: the call is skipped on null/undefined. *)
Definition optChain {A B : Type} (o : option A) (f : A -> B) : option B :=
  match o with
  | Some a => Some (f a)
  | None => None
  end.

(** Truthiness of a value that is a boolean or undefined. *)
Definition truthy (v : option bool) : bool :=
  match v with
  | Some b => b
  | None => false
  end.

(** [a || b] on such values: [a] when it is truthy, else [b]. *)
Definition or (a b : option bool) : option bool :=
  if truthy a then a else b.

(** [s || fallback] on a nullable string: the empty string is falsy. *)
Definition orString (s : option string) (fallback : string) : string :=
  match s with
  | Some (String c r) => String c r
  | Some EmptyString | None => fallback
  end.

(** [a || b] where both are nullable strings. *)
Definition orNullable (a b : option string) : option string :=
  match a with
  | Some (String c r) => Some (String c r)
  | Some EmptyString | None => b
  end.

(** An ASCII-only lower-casing, used to run examples; on strings of
    ASCII characters it agrees with [String.prototype.toLowerCase]. *)
Definition asciiLowerChar (c : ascii) : ascii :=
  let n := nat_of_ascii c in
  if ((65 <=? n) && (n <=? 90))%nat then ascii_of_nat (n + 32) else c.

Fixpoint asciiLower (s : string) : string :=
  match s with
  | EmptyString => EmptyString
  | String c r => String (asciiLowerChar c) (asciiLower r)
  end.

End JS.

(** What the search property calls containment: [q] occurs in [s]. *)
Definition substring_of (q s : string) : Prop :=
  exists pre post, s = pre ++ q ++ post.

(* ------------------------------------------------------------------ *)
(** ** Search filter (lines 120-123) *)

Section Search.

(** [String.prototype.toLowerCase]; the filter is correct whatever
    case mapping the engine implements. *)
Variable toLowerCase : string -> string.

(** The predicate passed to [users.filter]. *)
Definition matchesSearch (searchTerm : string) (user : User) : option bool :=
  JS.or
    (JS.optChain (full_name user)
       (fun s => JS.includes (toLowerCase s) (toLowerCase searchTerm)))
    (JS.optChain (email user)
       (fun s => JS.includes (toLowerCase s) (toLowerCase searchTerm))).

Definition filteredUsers (users : list User) (searchTerm : string) : list User :=
  filter (fun user => JS.truthy (matchesSearch searchTerm user)) users.

(** The search property in the words of the specification: a nullable
    field contains [q] case-insensitively when it is present and its
    lower-cased text has the lower-cased [q] as a substring. *)
Definition contains_ci (field : option string) (q : string) : Prop :=
  exists s, field = Some s /\ substring_of (toLowerCase q) (toLowerCase s).

Definition spec_matches (q : string) (u : User) : Prop :=
  contains_ci (full_name u) q \/ contains_ci (email u) q.

End Search.

(* ------------------------------------------------------------------ *)
(** ** View state, observable effects and backend replies *)

(** The six [useState] cells of the component. *)
Record View := mkView {
  users : list User;
  infractions : list Infraction;
  loading : bool;
  searchTerm : string;
  selectedInfraction : option Infraction;
  isInfractionModalOpen : bool
}.

(** [useState] initial values. *)
Definition initialView : View :=
  {| users := []; infractions := []; loading := true; searchTerm := "";
     selectedInfraction := None; isInfractionModalOpen := false |}.

(** A backend error object; only its identity matters to the page. *)
Definition Err := string.

(** Calls into the toast, routing and console facilities. *)
Inductive Effect :=
| ToastError (message : string)
| ToastSuccess (message : string)
| Navigate (path : string)
| ConsoleError (label : string) (error : Err).

(** The [{ data, error }] object a query settles with. *)
Record PostgrestResponse (A : Type) := mkResponse {
  data : option A;
  error : option Err
}.
Arguments mkResponse {A} _ _.
Arguments data {A} _.
Arguments error {A} _.

(** What awaiting a promise gives: its value, or a rejection. *)
Inductive Promise (A : Type) :=
| Resolves (value : A)
| Rejects (reason : Err).
Arguments Resolves {A} _.
Arguments Rejects {A} _.

(** The session user returned by [auth.getUser()]. *)
Record AuthUser := mkAuthUser { auth_id : string }.

(** The row returned by [select('user_type')]. *)
Record Profile := mkProfile { profile_user_type : UserType }.

(** The backend as the page sees it: one reply per call. *)
Record Backend := mkBackend {
  auth_getUser : Promise (option AuthUser);
  profiles_select_user_type : string -> Promise (PostgrestResponse Profile);
  profiles_select : Promise (PostgrestResponse (list User));
  infractions_select : Promise (PostgrestResponse (list Infraction));
  profiles_update_status : UserStatus -> string -> Promise (PostgrestResponse unit);
  infractions_update_status :
    InfractionStatus -> string -> Promise (PostgrestResponse unit)
}.

(* ------------------------------------------------------------------ *)
(** ** A monad for handlers: state, effect log and exceptions *)

Record World := mkWorld {
  view : View;
  effects : list Effect
}.

Inductive Completion (A : Type) :=
| Normal (value : A)
| Thrown (error : Err).
Arguments Normal {A} _.
Arguments Thrown {A} _.

Definition M (A : Type) : Type := World -> Completion A * World.

Definition ret {A} (a : A) : M A := fun w => (Normal a, w).

Definition bind {A B} (m : M A) (k : A -> M B) : M B :=
  fun w =>
    match m w with
    | (Normal a, w') => k a w'
    | (Thrown e, w') => (Thrown e, w')
    end.

Definition throw {A} (e : Err) : M A := fun w => (Thrown e, w).

(** [try { body } catch (error) { handler }] *)
Definition tryCatch {A} (body : M A) (handler : Err -> M A) : M A :=
  fun w =>
    match body w with
    | (Normal a, w') => (Normal a, w')
    | (Thrown e, w') => handler e w'
    end.

(** [try { body } finally { cleanup }]: the cleanup runs on both exits
    and the completion of the body is kept. *)
Definition tryFinally {A} (body : M A) (cleanup : M unit) : M A :=
  fun w =>
    match body w with
    | (c, w') =>
        match cleanup w' with
        | (Normal _, w'') => (c, w'')
        | (Thrown e, w'') => (Thrown e, w'')
        end
    end.

Declare Scope handler_scope.
Delimit Scope handler_scope with handler.
Notation "x <- m ;; k" := (bind m (fun x => k))
  (at level 100, m at next level, right associativity) : handler_scope.
Notation "m ;; k" := (bind m (fun _ => k))
  (at level 100, right associativity) : handler_scope.
Open Scope handler_scope.

(** [await p] *)
Definition await {A} (p : Promise A) : M A :=
  match p with
  | Resolves a => ret a
  | Rejects e => throw e
  end.

Definition emit (e : Effect) : M unit :=
  fun w => (Normal tt, {| view := view w; effects := effects w ++ [e] |}).

Definition modify (f : View -> View) : M unit :=
  fun w => (Normal tt, {| view := f (view w); effects := effects w |}).

(** [if (error) throw error] *)
Definition throwIfError (error : option Err) : M unit :=
  match error with
  | Some e => throw e
  | None => ret tt
  end.

(** The state setters. *)
Definition setUsers (l : list User) : M unit :=
  modify (fun v =>
    {| users := l; infractions := infractions v; loading := loading v;
       searchTerm := searchTerm v; selectedInfraction := selectedInfraction v;
       isInfractionModalOpen := isInfractionModalOpen v |}).

Definition setInfractions (l : list Infraction) : M unit :=
  modify (fun v =>
    {| users := users v; infractions := l; loading := loading v;
       searchTerm := searchTerm v; selectedInfraction := selectedInfraction v;
       isInfractionModalOpen := isInfractionModalOpen v |}).

Definition setLoading (b : bool) : M unit :=
  modify (fun v =>
    {| users := users v; infractions := infractions v; loading := b;
       searchTerm := searchTerm v; selectedInfraction := selectedInfraction v;
       isInfractionModalOpen := isInfractionModalOpen v |}).

Definition setSearchTerm (s : string) : M unit :=
  modify (fun v =>
    {| users := users v; infractions := infractions v; loading := loading v;
       searchTerm := s; selectedInfraction := selectedInfraction v;
       isInfractionModalOpen := isInfractionModalOpen v |}).

Definition setSelectedInfraction (i : option Infraction) : M unit :=
  modify (fun v =>
    {| users := users v; infractions := infractions v; loading := loading v;
       searchTerm := searchTerm v; selectedInfraction := i;
       isInfractionModalOpen := isInfractionModalOpen v |}).

Definition setIsInfractionModalOpen (b : bool) : M unit :=
  modify (fun v =>
    {| users := users v; infractions := infractions v; loading := loading v;
       searchTerm := searchTerm v; selectedInfraction := selectedInfraction v;
       isInfractionModalOpen := b |}).

(** [data || []] *)
Definition orEmpty {A} (d : option (list A)) : list A :=
  match d with
  | Some l => l
  | None => []
  end.

(** Run a handler from a view with an empty effect log. *)
Definition run {A} (m : M A) (v : View) : Completion A * World :=
  m {| view := v; effects := [] |}.

Definition finalView {A} (r : Completion A * World) : View := view (snd r).
Definition shown {A} (r : Completion A * World) : list Effect := effects (snd r).

(* ------------------------------------------------------------------ *)
(** ** Access guard (lines 52-71) *)

Definition accessDenied : string :=
  "Acceso denegado. Solo los administradores pueden acceder a esta página.".

Definition checkAdminAccess (be : Backend) : M unit :=
  user <- await (auth_getUser be) ;;
  match user with
  | None => emit (Navigate "/auth")
  | Some user =>
      r <- await (profiles_select_user_type be (auth_id user)) ;;
      match data r with
      | None =>
          emit (ToastError accessDenied) ;;
          emit (Navigate "/")
      | Some profile =>
          if negb (UserType_eqb (profile_user_type profile) admin) then
            emit (ToastError accessDenied) ;;
            emit (Navigate "/")
          else ret tt
      end
  end.

(* ------------------------------------------------------------------ *)
(** ** Data loader (lines 78-114) *)

Definition loadData (be : Backend) : M unit :=
  tryFinally
    (tryCatch
       (r <- await (profiles_select be) ;;
        throwIfError (error r) ;;
        setUsers (orEmpty (data r)) ;;
        r' <- await (infractions_select be) ;;
        throwIfError (error r') ;;
        setInfractions (orEmpty (data r')))
       (fun error =>
          emit (ConsoleError "Error loading data:" error) ;;
          emit (ToastError "Error al cargar los datos")))
    (setLoading false).

(* ------------------------------------------------------------------ *)
(** ** Write actions (lines 126-172)

    Each handler closes over the lists of the render it was created in;
    [rendered] is that render's view. *)

Definition handleBlockUser (be : Backend) (rendered : View) (userId : string) : M unit :=
  tryCatch
    (r <- await (profiles_update_status be inactive userId) ;;
     throwIfError (error r) ;;
     setUsers (map (fun user =>
                      if String.eqb (id user) userId
                      then with_status user inactive else user)
                   (users rendered)) ;;
     emit (ToastSuccess "Usuario bloqueado exitosamente"))
    (fun error =>
       emit (ConsoleError "Error blocking user:" error) ;;
       emit (ToastError "Error al bloquear el usuario")).

Definition handleResolveInfraction (be : Backend) (rendered : View)
    (infractionId : string) : M unit :=
  tryCatch
    (r <- await (infractions_update_status be resolved infractionId) ;;
     throwIfError (error r) ;;
     setInfractions (map (fun infraction =>
                            if String.eqb (inf_id infraction) infractionId
                            then with_inf_status infraction resolved
                            else infraction)
                         (infractions rendered)) ;;
     setIsInfractionModalOpen false ;;
     emit (ToastSuccess "Infracción resuelta exitosamente"))
    (fun error =>
       emit (ConsoleError "Error resolving infraction:" error) ;;
       emit (ToastError "Error al resolver la infracción")).

Definition handleViewInfractionDetails (infraction : Infraction) : M unit :=
  setSelectedInfraction (Some infraction) ;;
  setIsInfractionModalOpen true.

(* ------------------------------------------------------------------ *)
(** ** Statistics (lines 175-180) *)

Record Stats := mkStats {
  totalUsers : nat;
  activeUsers : nat;
  pendingInfractions : nat;
  resolvedInfractions : nat
}.

Definition stats (v : View) : Stats :=
  {| totalUsers := length (users v);
     activeUsers :=
       length (filter (fun u => UserStatus_eqb (status u) active) (users v));
     pendingInfractions :=
       length (filter (fun i => InfractionStatus_eqb (inf_status i) pending)
                 (infractions v));
     resolvedInfractions :=
       length (filter (fun i => InfractionStatus_eqb (inf_status i) resolved)
                 (infractions v)) |}.

(* ------------------------------------------------------------------ *)
(** ** The user table (lines 272-318) *)

Inductive BadgeVariant := destructive | default | secondary.

(** The confirmation dialog behind the "Bloquear" button: the name it
    shows and the id its confirm button passes to [handleBlockUser]. *)
Record BlockAction := mkBlockAction {
  named : option string;
  blocks : string
}.

Record UserRow := mkUserRow {
  row_key : string;
  name_cell : string;
  email_cell : option string;
  type_badge : BadgeVariant * UserType;
  status_badge : BadgeVariant * string;
  date_cell : string;
  block_action : option BlockAction
}.

Section Render.

Variable toLowerCase : string -> string.
(** [new Date(s).toLocaleDateString()] *)
Variable toLocaleDateString : string -> string.

Definition renderUserRow (user : User) : UserRow :=
  {| row_key := id user;
     name_cell := JS.orString (full_name user) "Sin nombre";
     email_cell := email user;
     type_badge :=
       (if UserType_eqb (user_type user) admin then destructive
        else if UserType_eqb (user_type user) artist then default
        else secondary,
        user_type user);
     status_badge :=
       (if UserStatus_eqb (status user) active then default else destructive,
        if UserStatus_eqb (status user) active then "Activo" else "Inactivo");
     date_cell := toLocaleDateString (created_at user);
     block_action :=
       if UserStatus_eqb (status user) active
          && negb (UserType_eqb (user_type user) admin)
       then Some {| named := JS.orNullable (full_name user) (email user);
                    blocks := id user |}
       else None |}.

Definition userTable (v : View) : list UserRow :=
  map renderUserRow (filteredUsers toLowerCase (users v) (searchTerm v)).

End Render.

(* ------------------------------------------------------------------ *)
(** ** Sample data for the examples *)

Definition ana : User :=
  {| id := "1"; email := Some "ana@example.com"; full_name := Some "Ana Ruiz";
     user_type := client; status := active; created_at := "2024-03-01" |}.

Definition root : User :=
  {| id := "2"; email := Some "root@example.com"; full_name := Some "Root";
     user_type := admin; status := active; created_at := "2024-01-01" |}.

(** A profile row with neither a name nor an email. *)
Definition nameless : User :=
  {| id := "3"; email := None; full_name := None;
     user_type := artist; status := active; created_at := "2024-02-01" |}.

Definition report_a : Infraction :=
  {| inf_id := "a"; inf_user_id := "1"; reported_user_id := "3";
     description := "spam"; detailed_description := None;
     inf_status := pending; inf_created_at := "2024-03-02";
     reported_user := None;
     reporter := Some {| ref_full_name := Some "Ana Ruiz";
                         ref_email := Some "ana@example.com" |} |}.

Definition loadedView : View :=
  {| users := [ana; root]; infractions := [report_a]; loading := false;
     searchTerm := ""; selectedInfraction := Some report_a;
     isInfractionModalOpen := true |}.

Definition ok {A} (d : option A) : Promise (PostgrestResponse A) :=
  Resolves {| data := d; error := None |}.

Definition failed {A} (e : Err) : Promise (PostgrestResponse A) :=
  Resolves {| data := None; error := Some e |}.

(** A backend on which every call succeeds, for an admin session. *)
Definition happyBackend : Backend :=
  {| auth_getUser := Resolves (Some {| auth_id := "2" |});
     profiles_select_user_type := fun _ => ok (Some {| profile_user_type := admin |});
     profiles_select := ok (Some [ana; root]);
     infractions_select := ok (Some [report_a]);
     profiles_update_status := fun _ _ => ok None;
     infractions_update_status := fun _ _ => ok None |}.

(** The profiles query succeeds, the infractions query fails. *)
Definition halfBackend : Backend :=
  {| auth_getUser := auth_getUser happyBackend;
     profiles_select_user_type := profiles_select_user_type happyBackend;
     profiles_select := ok (Some [ana; root]);
     infractions_select := failed "timeout";
     profiles_update_status := fun _ _ => failed "denied";
     infractions_update_status := fun _ _ => failed "denied" |}.

(* ------------------------------------------------------------------ *)
(** ** Outcomes of a backend call *)

(** The call failed: the promise rejected, or it settled with an error. *)
Definition fails {A} (p : Promise (PostgrestResponse A)) : Prop :=
  match p with
  | Rejects _ => True
  | Resolves r => error r <> None
  end.

(** The call succeeded with payload [d]. *)
Definition succeeds {A} (p : Promise (PostgrestResponse A)) (d : option A) : Prop :=
  p = Resolves {| data := d; error := None |}.

(** A profile row carries some text to search in. *)
Definition hasNameOrEmail (u : User) : bool :=
  match full_name u, email u with
  | None, None => false
  | _, _ => true
  end.

(* ------------------------------------------------------------------ *)
(** ** The infraction table, the detail modal and the page
    (lines 182-188 and 344-439) *)

(** [o?.field] where the field itself may be null. *)
Definition optField {A B : Type} (o : option A) (f : A -> option B) : option B :=
  match o with
  | Some a => f a
  | None => None
  end.

(** [onOpenChange={setIsInfractionModalOpen}] of the dialog. *)
Definition onOpenChange (open : bool) : M unit := setIsInfractionModalOpen open.

(** One row of the infraction table; [details_action] is the record
    its "Ver Detalles" button passes to [handleViewInfractionDetails]. *)
Record InfractionRow := mkInfractionRow {
  irow_key : string;
  reported_cell : string;
  reporter_cell : string;
  description_cell : string;
  irow_badge : BadgeVariant * string;
  irow_date : string;
  details_action : Infraction
}.

(** The body of the detail dialog; [resolve_action] is the id its
    "Resolver Infracción" button passes to [handleResolveInfraction]. *)
Record ModalContent := mkModalContent {
  m_reported_name : string;
  m_reported_email : option string;
  m_reporter_name : string;
  m_reporter_email : option string;
  m_description : string;
  m_detailed : string;
  m_badge : BadgeVariant * string;
  m_date : string;
  resolve_action : option string
}.

Record Modal := mkModal {
  modal_open : bool;
  modal_content : option ModalContent
}.

Record DashboardView := mkDashboard {
  cards : Stats;
  search_box : string;
  user_rows : list UserRow;
  infraction_rows : list InfractionRow;
  modal : Modal
}.

Inductive Screen :=
| Spinner
| Dashboard (d : DashboardView).

Section Page.

Variable toLowerCase : string -> string.
Variable toLocaleDateString : string -> string.
(** [new Date(s).toLocaleString()] *)
Variable toLocaleString : string -> string.

Definition statusBadge (s : InfractionStatus) : BadgeVariant * string :=
  (if InfractionStatus_eqb s pending then destructive else default,
   if InfractionStatus_eqb s pending then "Pendiente" else "Resuelta").

Definition renderInfractionRow (infraction : Infraction) : InfractionRow :=
  {| irow_key := inf_id infraction;
     reported_cell :=
       JS.orString (optField (reported_user infraction) ref_full_name)
         "Usuario desconocido";
     reporter_cell :=
       JS.orString (optField (reporter infraction) ref_full_name)
         "Usuario desconocido";
     description_cell := description infraction;
     irow_badge := statusBadge (inf_status infraction);
     irow_date := toLocaleDateString (inf_created_at infraction);
     details_action := infraction |}.

Definition infractionTable (v : View) : list InfractionRow :=
  map renderInfractionRow (infractions v).

Definition renderModalContent (selected : Infraction) : ModalContent :=
  {| m_reported_name :=
       JS.orString (optField (reported_user selected) ref_full_name)
         "Usuario desconocido";
     m_reported_email := optField (reported_user selected) ref_email;
     m_reporter_name :=
       JS.orString (optField (reporter selected) ref_full_name)
         "Usuario desconocido";
     m_reporter_email := optField (reporter selected) ref_email;
     m_description := description selected;
     m_detailed :=
       JS.orString (detailed_description selected)
         "No hay descripción detallada disponible.";
     m_badge := statusBadge (inf_status selected);
     m_date := toLocaleString (inf_created_at selected);
     resolve_action :=
       if InfractionStatus_eqb (inf_status selected) pending
       then Some (inf_id selected) else None |}.

Definition infractionModal (v : View) : Modal :=
  {| modal_open := isInfractionModalOpen v;
     modal_content :=
       match selectedInfraction v with
       | Some selected => Some (renderModalContent selected)
       | None => None
       end |}.

(** The component's return value for the current state. *)
Definition Admin (v : View) : Screen :=
  if loading v then Spinner
  else Dashboard
         {| cards := stats v;
            search_box := searchTerm v;
            user_rows := userTable toLowerCase toLocaleDateString v;
            infraction_rows := infractionTable v;
            modal := infractionModal v |}.

End Page.

(** The view a handler leaves behind. *)
Definition after (m : M unit) (v : View) : View := finalView (run m v).

(** The two patches the write actions map over their list. *)
Definition blockPatch (userId : string) (user : User) : User :=
  if String.eqb (id user) userId then with_status user inactive else user.

Definition resolvePatch (infractionId : string) (infraction : Infraction) : Infraction :=
  if String.eqb (inf_id infraction) infractionId
  then with_inf_status infraction resolved else infraction.

(** Entries a block of [userId] turns from active to inactive, and
    entries a resolve of [infractionId] turns from pending to resolved. *)
Definition activeWithId (userId : string) (l : list User) : nat :=
  length (filter (fun u => String.eqb (id u) userId
                           && UserStatus_eqb (status u) active) l).

Definition pendingWithId (infractionId : string) (l : list Infraction) : nat :=
  length (filter (fun i => String.eqb (inf_id i) infractionId
                           && InfractionStatus_eqb (inf_status i) pending) l).

(** The error a backend call throws into the handler, if any: the
    rejection reason, or the [error] of the settled reply. *)
Definition failure {A} (p : Promise (PostgrestResponse A)) : option Err :=
  match p with
  | Rejects e => Some e
  | Resolves r => error r
  end.

(** One of the guard's backend calls rejects. *)
Definition guardRejects (be : Backend) : Prop :=
  match auth_getUser be with
  | Rejects _ => True
  | Resolves None => False
  | Resolves (Some user) =>
      match profiles_select_user_type be (auth_id user) with
      | Rejects _ => True
      | Resolves _ => False
      end
  end.

(** The session belongs to a user whose profile row says admin. *)
Definition sessionIsAdmin (be : Backend) : Prop :=
  exists user reply,
    auth_getUser be = Resolves (Some user)
    /\ profiles_select_user_type be (auth_id user) = Resolves reply
    /\ data reply = Some {| profile_user_type := admin |}.

(** The row shows the "Bloquear" button. *)
Definition offersBlock (r : UserRow) : bool :=
  match block_action r with
  | Some _ => true
  | None => false
  end.

(** More sample data. *)
Definition bruno : User :=
  {| id := "4"; email := Some "bruno@example.com"; full_name := Some "";
     user_type := artist; status := active; created_at := "2024-04-01" |}.

Definition crowdedView : View :=
  {| users := [ana; bruno; root]; infractions := [report_a]; loading := false;
     searchTerm := "example"; selectedInfraction := None;
     isInfractionModalOpen := false |}.

Definition rejectingBackend : Backend :=
  {| auth_getUser := Rejects "network";
     profiles_select_user_type := fun _ => Rejects "network";
     profiles_select := Rejects "network";
     infractions_select := Rejects "network";
     profiles_update_status := fun _ _ => Rejects "network";
     infractions_update_status := fun _ _ => Rejects "network" |}.

(* ================================================================== *)
(** * Properties *)

(** ** Strings *)

Lemma startsWith_iff (s t : string) :
  JS.startsWith s t = true <-> exists post, s = t ++ post.
Proof.
  revert s. induction t as [|c t IH]; intros s.
  - split; [intros _; now exists s | intros _; now destruct s].
  - destruct s as [|d s]; simpl.
    + split; [discriminate | intros [post H]; discriminate].
    + rewrite andb_true_iff, Ascii.eqb_eq, IH. split.
      * intros [-> [post ->]]. now exists post.
      * intros [post H]. injection H as -> ->. split; [reflexivity | now exists post].
Qed.

Lemma startsWith_empty (s : string) : JS.startsWith s "" = true.
Proof. now destruct s. Qed.

Lemma includes_empty (s : string) : JS.includes s "" = true.
Proof. destruct s; reflexivity. Qed.

Lemma includes_iff (s t : string) :
  JS.includes s t = true <-> substring_of t s.
Proof.
  unfold substring_of. induction s as [|c s IH].
  - cbn [JS.includes]. rewrite orb_false_r, startsWith_iff. split.
    + intros [post H]. now exists "", post.
    + intros [[|d pre] [post H]]; [now exists post | discriminate].
  - cbn [JS.includes]. rewrite orb_true_iff, startsWith_iff, IH. split.
    + intros [[post H] | [pre [post H]]].
      * now exists "", post.
      * exists (String c pre), post. simpl. now rewrite H.
    + intros [[|d pre] [post H]].
      * left. now exists post.
      * right. simpl in H. injection H as -> ->. now exists pre, post.
Qed.

(** ** Search filter *)

Section SearchProperties.

Variable toLowerCase : string -> string.

Lemma truthy_or (a b : option bool) :
  JS.truthy (JS.or a b) = JS.truthy a || JS.truthy b.
Proof. unfold JS.or. destruct (JS.truthy a) eqn:E; simpl; auto. Qed.

Lemma optChain_includes_iff (field : option string) (q : string) :
  JS.truthy (JS.optChain field
               (fun s => JS.includes (toLowerCase s) (toLowerCase q))) = true
  <-> contains_ci toLowerCase field q.
Proof.
  unfold contains_ci. destruct field as [s|]; simpl.
  - rewrite includes_iff. split.
    + intros H. now exists s.
    + intros [s' [E H]]. now injection E as ->.
  - split; [discriminate | intros [s [E _]]; discriminate].
Qed.

Lemma matchesSearch_iff (q : string) (u : User) :
  JS.truthy (matchesSearch toLowerCase q u) = true
  <-> spec_matches toLowerCase q u.
Proof.
  unfold matchesSearch, spec_matches.
  now rewrite truthy_or, orb_true_iff, !optChain_includes_iff.
Qed.

Lemma matchesSearch_empty (u : User) :
  toLowerCase "" = "" ->
  JS.truthy (matchesSearch toLowerCase "" u) = hasNameOrEmail u.
Proof.
  intros E. unfold matchesSearch, hasNameOrEmail.
  rewrite truthy_or, E.
  destruct (full_name u), (email u); simpl;
    rewrite ?includes_empty; reflexivity.
Qed.

Lemma filter_all {A} (f : A -> bool) (l : list A) :
  Forall (fun x => f x = true) l -> filter f l = l.
Proof.
  induction 1 as [|x l Hx _ IH]; simpl; [reflexivity|].
  now rewrite Hx, IH.
Qed.

(** C1 (amended): the filtered list holds exactly the loaded profiles
    whose display name or email contains the query case-insensitively,
    in loaded order; the empty query returns exactly the loaded
    profiles that have a display name or an email, hence the full list
    when every loaded profile has one of the two. *)
Theorem C1_filteredUsers_search (users : list User) (q : string) :
  toLowerCase "" = "" ->
  (forall u, In u (filteredUsers toLowerCase users q)
             <-> In u users /\ spec_matches toLowerCase q u)
  /\ (exists keep : User -> bool,
        (forall u, keep u = true <-> spec_matches toLowerCase q u)
        /\ filteredUsers toLowerCase users q = filter keep users)
  /\ filteredUsers toLowerCase users "" = filter hasNameOrEmail users
  /\ (Forall (fun u => hasNameOrEmail u = true) users ->
      filteredUsers toLowerCase users "" = users).
Proof.
  intros E. unfold filteredUsers. split; [|split; [|split]].
  - intros u. rewrite filter_In, matchesSearch_iff. reflexivity.
  - exists (fun u => JS.truthy (matchesSearch toLowerCase q u)).
    split; [intros u; apply matchesSearch_iff | reflexivity].
  - apply filter_ext. intros u. now apply matchesSearch_empty.
  - intros Hall. apply filter_all.
    eapply Forall_impl; [|exact Hall].
    intros u Hu. simpl in Hu. now rewrite matchesSearch_empty.
Qed.

End SearchProperties.

(** C1 (as stated, refuted): with the empty query a loaded profile whose
    name and email are both null is filtered out, so the result is not
    the full loaded list. *)
Lemma C1_empty_query_drops_blank_profile :
  filteredUsers JS.asciiLower [ana; nameless] "" = [ana]
  /\ filteredUsers JS.asciiLower [ana; nameless] "" <> [ana; nameless].
Proof. split; [reflexivity | discriminate]. Qed.

(** C1 at a concrete list: every profile has a name or an email, and the
    empty query returns the list itself. *)
Lemma C1_filteredUsers_witness :
  JS.asciiLower "" = ""
  /\ filteredUsers JS.asciiLower [ana; root] "" = [ana; root].
Proof.
  split; [reflexivity|].
  apply (proj2 (proj2 (proj2
    (C1_filteredUsers_search JS.asciiLower [ana; root] "" eq_refl)))).
  repeat constructor.
Defined.

Example search_by_name : filteredUsers JS.asciiLower [ana; root] "RUIZ" = [ana].
Proof. reflexivity. Qed.

Example search_by_email : filteredUsers JS.asciiLower [ana; root] "root@" = [root].
Proof. reflexivity. Qed.

(** ** Write actions *)

Section WriteActions.

Variable be : Backend.
Variable v : View.

(** What a successful block leaves behind. *)
Lemma handleBlockUser_success (userId : string) (d : option unit) :
  succeeds (profiles_update_status be inactive userId) d ->
  run (handleBlockUser be v userId) v =
    (Normal tt,
     {| view :=
          {| users := map (fun user =>
                             if String.eqb (id user) userId
                             then with_status user inactive else user)
                          (users v);
             infractions := infractions v; loading := loading v;
             searchTerm := searchTerm v;
             selectedInfraction := selectedInfraction v;
             isInfractionModalOpen := isInfractionModalOpen v |};
        effects := [ToastSuccess "Usuario bloqueado exitosamente"] |}).
Proof.
  intros H. unfold succeeds in H.
  unfold run, handleBlockUser, tryCatch, bind. rewrite H. reflexivity.
Qed.

Lemma handleResolveInfraction_success (infractionId : string) (d : option unit) :
  succeeds (infractions_update_status be resolved infractionId) d ->
  run (handleResolveInfraction be v infractionId) v =
    (Normal tt,
     {| view :=
          {| users := users v;
             infractions := map (fun infraction =>
                                   if String.eqb (inf_id infraction) infractionId
                                   then with_inf_status infraction resolved
                                   else infraction)
                                (infractions v);
             loading := loading v; searchTerm := searchTerm v;
             selectedInfraction := selectedInfraction v;
             isInfractionModalOpen := false |};
        effects := [ToastSuccess "Infracción resuelta exitosamente"] |}).
Proof.
  intros H. unfold succeeds in H.
  unfold run, handleResolveInfraction, tryCatch, bind. rewrite H. reflexivity.
Qed.

Lemma handleBlockUser_failure (userId : string) :
  fails (profiles_update_status be inactive userId) ->
  exists e,
    run (handleBlockUser be v userId) v =
      (Normal tt,
       {| view := v;
          effects := [ConsoleError "Error blocking user:" e;
                      ToastError "Error al bloquear el usuario"] |}).
Proof.
  intros H. unfold run, handleBlockUser, tryCatch, bind.
  destruct (profiles_update_status be inactive userId) as [[d [e|]]|e];
    simpl in *; try (now elim H); now exists e.
Qed.

Lemma handleResolveInfraction_failure (infractionId : string) :
  fails (infractions_update_status be resolved infractionId) ->
  exists e,
    run (handleResolveInfraction be v infractionId) v =
      (Normal tt,
       {| view := v;
          effects := [ConsoleError "Error resolving infraction:" e;
                      ToastError "Error al resolver la infracción"] |}).
Proof.
  intros H. unfold run, handleResolveInfraction, tryCatch, bind.
  destruct (infractions_update_status be resolved infractionId) as [[d [e|]]|e];
    simpl in *; try (now elim H); now exists e.
Qed.

End WriteActions.

(** C2: after a block of [U] that succeeds remotely, the local user list
    has the same entries at the same positions, every entry whose id is
    [U] has status inactive and all its other fields as before, every
    other entry is unchanged, and so is the rest of the view. *)
Theorem C2_block_patches_only_target
    (be : Backend) (v : View) (U : string) (d : option unit) :
  succeeds (profiles_update_status be inactive U) d ->
  let v' := finalView (run (handleBlockUser be v U) v) in
  length (users v') = length (users v)
  /\ (forall n u, nth_error (users v) n = Some u ->
        exists u', nth_error (users v') n = Some u'
          /\ (id u = U ->
              status u' = inactive /\ id u' = id u /\ email u' = email u
              /\ full_name u' = full_name u /\ user_type u' = user_type u
              /\ created_at u' = created_at u)
          /\ (id u <> U -> u' = u))
  /\ infractions v' = infractions v
  /\ loading v' = loading v
  /\ searchTerm v' = searchTerm v
  /\ selectedInfraction v' = selectedInfraction v
  /\ isInfractionModalOpen v' = isInfractionModalOpen v.
Proof.
  intros H v'. subst v'. rewrite (handleBlockUser_success be v U d H).
  unfold finalView; simpl. split; [apply length_map|].
  split; [|repeat split].
  intros n u Hn. rewrite nth_error_map, Hn. simpl.
  eexists; split; [reflexivity|]. split.
  - intros E. apply String.eqb_eq in E. rewrite E. simpl. repeat split.
  - intros NE. apply String.eqb_neq in NE. now rewrite NE.
Qed.

Lemma C2_block_witness :
  succeeds (profiles_update_status happyBackend inactive "1") None
  /\ length (users (finalView (run (handleBlockUser happyBackend loadedView "1")
                                 loadedView))) = length (users loadedView).
Proof.
  split; [reflexivity|].
  exact (proj1 (C2_block_patches_only_target happyBackend loadedView "1" None eq_refl)).
Defined.

Example block_ana :
  users (finalView (run (handleBlockUser happyBackend loadedView "1") loadedView))
  = [with_status ana inactive; root].
Proof. reflexivity. Qed.

(** C3: after a resolve of [I] that succeeds remotely, every infraction
    whose id is [I] has status resolved and its other fields as before,
    every other infraction is unchanged, the detail modal is closed and
    the toast "Infracción resuelta exitosamente" is shown. *)
Theorem C3_resolve_patches_closes_notifies
    (be : Backend) (v : View) (I : string) (d : option unit) :
  succeeds (infractions_update_status be resolved I) d ->
  let r := run (handleResolveInfraction be v I) v in
  length (infractions (finalView r)) = length (infractions v)
  /\ (forall n i, nth_error (infractions v) n = Some i ->
        exists i', nth_error (infractions (finalView r)) n = Some i'
          /\ (inf_id i = I -> i' = with_inf_status i resolved
                              /\ inf_status i' = resolved)
          /\ (inf_id i <> I -> i' = i))
  /\ users (finalView r) = users v
  /\ isInfractionModalOpen (finalView r) = false
  /\ shown r = [ToastSuccess "Infracción resuelta exitosamente"].
Proof.
  intros H r. subst r. rewrite (handleResolveInfraction_success be v I d H).
  unfold finalView, shown; simpl. split; [apply length_map|].
  split; [|repeat split].
  intros n i Hn. rewrite nth_error_map, Hn. simpl.
  eexists; split; [reflexivity|]. split.
  - intros E. apply String.eqb_eq in E. rewrite E. now split.
  - intros NE. apply String.eqb_neq in NE. now rewrite NE.
Qed.

Lemma C3_resolve_witness :
  succeeds (infractions_update_status happyBackend resolved "a") None
  /\ isInfractionModalOpen
       (finalView (run (handleResolveInfraction happyBackend loadedView "a")
                     loadedView)) = false.
Proof.
  split; [reflexivity|].
  exact (proj1 (proj2 (proj2 (proj2
    (C3_resolve_patches_closes_notifies happyBackend loadedView "a" None eq_refl))))).
Defined.

(** C7: when the remote update of a write action fails (the promise
    rejects or settles with an error), the view, hence both lists, is
    left as it was and an error toast is shown; after a failed resolve a
    modal that was open is still open. *)
Theorem C7_write_failure_leaves_state
    (be : Backend) (v : View) (U I : string) :
  (fails (profiles_update_status be inactive U) ->
     let r := run (handleBlockUser be v U) v in
     finalView r = v
     /\ In (ToastError "Error al bloquear el usuario") (shown r)
     /\ forall m, ~ In (ToastSuccess m) (shown r))
  /\ (fails (infractions_update_status be resolved I) ->
     let r := run (handleResolveInfraction be v I) v in
     finalView r = v
     /\ In (ToastError "Error al resolver la infracción") (shown r)
     /\ (forall m, ~ In (ToastSuccess m) (shown r))
     /\ (isInfractionModalOpen v = true ->
         isInfractionModalOpen (finalView r) = true)).
Proof.
  split; intros H r; subst r.
  - destruct (handleBlockUser_failure be v U H) as [e ->].
    unfold finalView, shown; simpl. split; [reflexivity|]. split; [auto|].
    intros m [F|[F|[]]]; discriminate.
  - destruct (handleResolveInfraction_failure be v I H) as [e ->].
    unfold finalView, shown; simpl. split; [reflexivity|]. split; [auto|].
    split; [|auto]. intros m [F|[F|[]]]; discriminate.
Qed.

Lemma C7_write_failure_witness :
  fails (profiles_update_status halfBackend inactive "1")
  /\ fails (infractions_update_status halfBackend resolved "a")
  /\ finalView (run (handleBlockUser halfBackend loadedView "1") loadedView)
     = loadedView
  /\ finalView (run (handleResolveInfraction halfBackend loadedView "a") loadedView)
     = loadedView.
Proof.
  assert (Hb : fails (profiles_update_status halfBackend inactive "1"))
    by (simpl; discriminate).
  assert (Hr : fails (infractions_update_status halfBackend resolved "a"))
    by (simpl; discriminate).
  split; [exact Hb|]. split; [exact Hr|]. split.
  - exact (proj1 (proj1 (C7_write_failure_leaves_state halfBackend loadedView "1" "a") Hb)).
  - exact (proj1 (proj2 (C7_write_failure_leaves_state halfBackend loadedView "1" "a") Hr)).
Defined.

(** C10: a block with an id that matches no loaded entry, succeeding
    remotely, leaves the local user list as it was and still shows the
    toast "Usuario bloqueado exitosamente". *)
Theorem C10_block_unknown_id_still_notifies
    (be : Backend) (v : View) (U : string) (d : option unit) :
  Forall (fun u => id u <> U) (users v) ->
  succeeds (profiles_update_status be inactive U) d ->
  let r := run (handleBlockUser be v U) v in
  users (finalView r) = users v
  /\ shown r = [ToastSuccess "Usuario bloqueado exitosamente"].
Proof.
  intros Hall H r. subst r. rewrite (handleBlockUser_success be v U d H).
  unfold finalView, shown; simpl. split; [|reflexivity].
  induction Hall as [|u l Hu _ IH]; simpl; [reflexivity|].
  apply String.eqb_neq in Hu. now rewrite Hu, IH.
Qed.

Lemma C10_block_unknown_witness :
  Forall (fun u => id u <> "9") (users loadedView)
  /\ succeeds (profiles_update_status happyBackend inactive "9") None
  /\ users (finalView (run (handleBlockUser happyBackend loadedView "9") loadedView))
     = users loadedView.
Proof.
  assert (Hall : Forall (fun u => id u <> "9") (users loadedView))
    by (repeat constructor; discriminate).
  split; [exact Hall|]. split; [reflexivity|].
  exact (proj1 (C10_block_unknown_id_still_notifies
                  happyBackend loadedView "9" None Hall eq_refl)).
Defined.

(** ** Statistics *)

Lemma filter_split_length {A} (f g : A -> bool) (l : list A) :
  (forall x, g x = negb (f x)) ->
  length (filter f l) + length (filter g l) = length l.
Proof.
  intros Hfg. induction l as [|x l IH]; simpl; [reflexivity|].
  rewrite Hfg. destruct (f x); simpl; lia.
Qed.

(** C4: the derived counters satisfy activeUsers <= totalUsers, and the
    pending and resolved counts add up to the number of loaded
    infractions. *)
Theorem C4_stats_invariants (v : View) :
  activeUsers (stats v) <= totalUsers (stats v)
  /\ pendingInfractions (stats v) + resolvedInfractions (stats v)
     = length (infractions v).
Proof.
  unfold stats; simpl. split.
  - apply filter_length_le.
  - apply filter_split_length. intros i. now destruct (inf_status i).
Qed.

Example stats_loaded :
  stats loadedView =
  {| totalUsers := 2; activeUsers := 2;
     pendingInfractions := 1; resolvedInfractions := 0 |}.
Proof. reflexivity. Qed.

(** ** User table *)

(** C8: every row of the user table renders a loaded user, and the row
    offers the block action exactly when that user's status is active
    and the role is not admin; a row of an admin never offers it, and an
    offered action targets the row's own user. *)
Theorem C8_block_action_visibility
    (toLowerCase toLocaleDateString : string -> string) (v : View) (r : UserRow) :
  In r (userTable toLowerCase toLocaleDateString v) ->
  exists u,
    In u (users v) /\ r = renderUserRow toLocaleDateString u
    /\ (block_action r <> None <-> status u = active /\ user_type u <> admin)
    /\ (user_type u = admin -> block_action r = None)
    /\ (forall a, block_action r = Some a -> blocks a = id u).
Proof.
  unfold userTable, filteredUsers. intros H.
  apply in_map_iff in H. destruct H as [u [<- Hu]].
  apply filter_In in Hu. destruct Hu as [Hu _].
  exists u. split; [assumption|]. split; [reflexivity|].
  unfold renderUserRow; simpl.
  destruct (status u), (user_type u); simpl; repeat split;
    try congruence; try discriminate;
    try (intros [? ?]; congruence); try (intros ? [? ?]; discriminate);
    try (intros a Ha; injection Ha as <-; reflexivity).
Qed.

Lemma C8_block_action_witness :
  In (renderUserRow (fun s => s) ana) (userTable JS.asciiLower (fun s => s) loadedView)
  /\ exists u, In u (users loadedView)
               /\ renderUserRow (fun s => s) ana = renderUserRow (fun s => s) u.
Proof.
  assert (Hin : In (renderUserRow (fun s => s) ana)
                  (userTable JS.asciiLower (fun s => s) loadedView))
    by (left; reflexivity).
  split; [exact Hin|].
  destruct (C8_block_action_visibility JS.asciiLower (fun s => s) loadedView _ Hin)
    as [u [Hu [Hr _]]].
  exists u. split; assumption.
Defined.

Example table_actions :
  map (@block_action) (userTable JS.asciiLower (fun s => s) loadedView)
  = [Some {| named := Some "Ana Ruiz"; blocks := "1" |}; None].
Proof. reflexivity. Qed.

(** ** Access guard *)

(** C9: a guard run with no session user navigates to "/auth" and does
    nothing else; with a session user whose profile is absent or whose
    role is not admin it shows the access-denied error toast and then
    navigates to "/"; with an admin profile it neither notifies nor
    navigates.  The view is never touched. *)
Theorem C9_guard_outcomes (be : Backend) (v : View) :
  let r := run (checkAdminAccess be) v in
  (auth_getUser be = Resolves None ->
     shown r = [Navigate "/auth"] /\ finalView r = v)
  /\ (forall user reply,
        auth_getUser be = Resolves (Some user) ->
        profiles_select_user_type be (auth_id user) = Resolves reply ->
        (data reply = None
         \/ (exists p, data reply = Some p /\ profile_user_type p <> admin) ->
           shown r = [ToastError accessDenied; Navigate "/"] /\ finalView r = v)
        /\ (forall p, data reply = Some p -> profile_user_type p = admin ->
           shown r = [] /\ finalView r = v)).
Proof.
  intros r. subst r. unfold run, checkAdminAccess, bind, shown, finalView.
  split.
  - intros ->. simpl. now split.
  - intros user reply -> Hp. simpl. rewrite Hp. simpl. split.
    + intros [-> | [p [-> Hne]]]; simpl; [now split|].
      destruct (profile_user_type p); simpl;
        [now split | now split | now elim Hne].
    + intros p -> ->. simpl. now split.
Qed.

Lemma C9_guard_witness :
  auth_getUser happyBackend = Resolves (Some {| auth_id := "2" |})
  /\ shown (run (checkAdminAccess happyBackend) initialView) = [].
Proof.
  split; [reflexivity|].
  exact (proj1 (proj2 (proj2 (C9_guard_outcomes happyBackend initialView)
                         {| auth_id := "2" |} _ eq_refl eq_refl)
                 {| profile_user_type := admin |} eq_refl eq_refl)).
Defined.

Example guard_client :
  shown (run (checkAdminAccess
                {| auth_getUser := Resolves (Some {| auth_id := "1" |});
                   profiles_select_user_type :=
                     fun _ => ok (Some {| profile_user_type := client |});
                   profiles_select := profiles_select happyBackend;
                   infractions_select := infractions_select happyBackend;
                   profiles_update_status := profiles_update_status happyBackend;
                   infractions_update_status :=
                     infractions_update_status happyBackend |})
           initialView)
  = [ToastError accessDenied; Navigate "/"].
Proof. reflexivity. Qed.

(** ** Data loader *)

Section Loader.

Variable be : Backend.
Variable v : View.

Lemma loadData_users_fail :
  fails (profiles_select be) ->
  exists e,
    run (loadData be) v =
      (Normal tt,
       {| view := {| users := users v; infractions := infractions v;
                     loading := false; searchTerm := searchTerm v;
                     selectedInfraction := selectedInfraction v;
                     isInfractionModalOpen := isInfractionModalOpen v |};
          effects := [ConsoleError "Error loading data:" e;
                      ToastError "Error al cargar los datos"] |}).
Proof.
  intros H. unfold run, loadData, tryFinally, tryCatch, bind.
  destruct (profiles_select be) as [[d [e|]]|e];
    simpl in *; try (now elim H); now exists e.
Qed.

Lemma loadData_infractions_fail (d : option (list User)) :
  succeeds (profiles_select be) d ->
  fails (infractions_select be) ->
  exists e,
    run (loadData be) v =
      (Normal tt,
       {| view := {| users := orEmpty d; infractions := infractions v;
                     loading := false; searchTerm := searchTerm v;
                     selectedInfraction := selectedInfraction v;
                     isInfractionModalOpen := isInfractionModalOpen v |};
          effects := [ConsoleError "Error loading data:" e;
                      ToastError "Error al cargar los datos"] |}).
Proof.
  intros Hu H. unfold succeeds in Hu.
  unfold run, loadData, tryFinally, tryCatch, bind. rewrite Hu.
  destruct (infractions_select be) as [[d' [e|]]|e];
    simpl in *; try (now elim H); now exists e.
Qed.

Lemma loadData_success (d : option (list User)) (d' : option (list Infraction)) :
  succeeds (profiles_select be) d ->
  succeeds (infractions_select be) d' ->
  run (loadData be) v =
    (Normal tt,
     {| view := {| users := orEmpty d; infractions := orEmpty d';
                   loading := false; searchTerm := searchTerm v;
                   selectedInfraction := selectedInfraction v;
                   isInfractionModalOpen := isInfractionModalOpen v |};
        effects := [] |}).
Proof.
  unfold succeeds. intros Hu Hi.
  unfold run, loadData, tryFinally, tryCatch, bind. now rewrite Hu, Hi.
Qed.

(** Every reply is a failure or a success. *)
Lemma fails_or_succeeds {A} (p : Promise (PostgrestResponse A)) :
  fails p \/ exists d, succeeds p d.
Proof.
  destruct p as [[d [e|]]|e]; simpl.
  - left. discriminate.
  - right. now exists d.
  - now left.
Qed.

End Loader.

(** C5 (as stated, refuted): the profiles query succeeds, the
    infractions query fails, and the users list is no longer the one
    from before the load. *)
Lemma C5_users_replaced_before_second_query :
  fails (infractions_select halfBackend)
  /\ users (finalView (run (loadData halfBackend) initialView)) = [ana; root]
  /\ users (finalView (run (loadData halfBackend) initialView))
     <> users initialView.
Proof.
  split; [simpl; discriminate|]. split; [reflexivity | discriminate].
Qed.

(** C5 (amended): when the profiles query fails, both lists are left as
    they were; when it succeeds and the infractions query fails, the
    infractions list is left as it was while the users list holds the
    loaded profiles. *)
Theorem C5_load_failure_state (be : Backend) (v : View) :
  let v' := finalView (run (loadData be) v) in
  (fails (profiles_select be) ->
     users v' = users v /\ infractions v' = infractions v)
  /\ (forall d, succeeds (profiles_select be) d ->
        fails (infractions_select be) ->
        users v' = orEmpty d /\ infractions v' = infractions v).
Proof.
  intros v'. subst v'. split.
  - intros H. destruct (loadData_users_fail be v H) as [e ->]. now split.
  - intros d Hu H. destruct (loadData_infractions_fail be v d Hu H) as [e ->].
    now split.
Qed.

Lemma C5_load_failure_witness :
  succeeds (profiles_select halfBackend) (Some [ana; root])
  /\ fails (infractions_select halfBackend)
  /\ infractions (finalView (run (loadData halfBackend) loadedView))
     = infractions loadedView.
Proof.
  assert (H : fails (infractions_select halfBackend)) by (simpl; discriminate).
  split; [reflexivity|]. split; [exact H|].
  exact (proj2 (proj2 (C5_load_failure_state halfBackend loadedView)
                  (Some [ana; root]) eq_refl H)).
Defined.

(** C6: the loader always returns with the loading flag cleared,
    whatever the two queries answer; when either query fails, the toast
    "Error al cargar los datos" is shown. *)
Theorem C6_loading_cleared_and_error_toast (be : Backend) (v : View) :
  let r := run (loadData be) v in
  fst r = Normal tt
  /\ loading (finalView r) = false
  /\ (fails (profiles_select be) \/ fails (infractions_select be) ->
      In (ToastError "Error al cargar los datos") (shown r)).
Proof.
  intros r. subst r.
  destruct (fails_or_succeeds (profiles_select be)) as [Hu | [d Hu]].
  - destruct (loadData_users_fail be v Hu) as [e ->].
    unfold finalView, shown; simpl. auto.
  - destruct (fails_or_succeeds (infractions_select be)) as [Hi | [d' Hi]].
    + destruct (loadData_infractions_fail be v d Hu Hi) as [e ->].
      unfold finalView, shown; simpl. auto.
    + rewrite (loadData_success be v d d' Hu Hi).
      unfold finalView, shown; simpl. split; [reflexivity|]. split; [reflexivity|].
      unfold succeeds in Hu, Hi. rewrite Hu, Hi. simpl.
      intros [F | F]; now elim F.
Qed.

Lemma C6_loading_witness :
  fails (infractions_select halfBackend)
  /\ In (ToastError "Error al cargar los datos")
        (shown (run (loadData halfBackend) initialView)).
Proof.
  assert (H : fails (infractions_select halfBackend)) by (simpl; discriminate).
  split; [exact H|].
  exact (proj2 (proj2 (C6_loading_cleared_and_error_toast halfBackend initialView))
           (or_intror H)).
Defined.

Example load_all :
  finalView (run (loadData happyBackend) initialView)
  = {| users := [ana; root]; infractions := [report_a]; loading := false;
       searchTerm := ""; selectedInfraction := None;
       isInfractionModalOpen := false |}.
Proof. reflexivity. Qed.

(* ================================================================== *)
(** * Further properties of the page *)

(** ** Handlers run from any current view *)

Lemma fails_failure {A} (p : Promise (PostgrestResponse A)) :
  fails p <-> failure p <> None.
Proof. destruct p as [r|e]; simpl; [reflexivity|]. split; [discriminate | auto]. Qed.

Lemma succeeds_failure {A} (p : Promise (PostgrestResponse A)) (d : option A) :
  succeeds p d -> failure p = None.
Proof. unfold succeeds. now intros ->. Qed.

Lemma handleBlockUser_from (be : Backend) (rendered cur : View) (userId : string) :
  run (handleBlockUser be rendered userId) cur =
    match failure (profiles_update_status be inactive userId) with
    | None =>
        (Normal tt,
         {| view :=
              {| users := map (blockPatch userId) (users rendered);
                 infractions := infractions cur; loading := loading cur;
                 searchTerm := searchTerm cur;
                 selectedInfraction := selectedInfraction cur;
                 isInfractionModalOpen := isInfractionModalOpen cur |};
            effects := [ToastSuccess "Usuario bloqueado exitosamente"] |})
    | Some e =>
        (Normal tt,
         {| view := cur;
            effects := [ConsoleError "Error blocking user:" e;
                        ToastError "Error al bloquear el usuario"] |})
    end.
Proof.
  unfold run, handleBlockUser, tryCatch, bind.
  destruct (profiles_update_status be inactive userId) as [[d [e|]]|e];
    reflexivity.
Qed.

Lemma handleResolveInfraction_from
    (be : Backend) (rendered cur : View) (infractionId : string) :
  run (handleResolveInfraction be rendered infractionId) cur =
    match failure (infractions_update_status be resolved infractionId) with
    | None =>
        (Normal tt,
         {| view :=
              {| users := users cur;
                 infractions := map (resolvePatch infractionId) (infractions rendered);
                 loading := loading cur; searchTerm := searchTerm cur;
                 selectedInfraction := selectedInfraction cur;
                 isInfractionModalOpen := false |};
            effects := [ToastSuccess "Infracción resuelta exitosamente"] |})
    | Some e =>
        (Normal tt,
         {| view := cur;
            effects := [ConsoleError "Error resolving infraction:" e;
                        ToastError "Error al resolver la infracción"] |})
    end.
Proof.
  unfold run, handleResolveInfraction, tryCatch, bind.
  destruct (infractions_update_status be resolved infractionId) as [[d [e|]]|e];
    reflexivity.
Qed.

Lemma loadData_from (be : Backend) (v : View) :
  run (loadData be) v =
    match failure (profiles_select be) with
    | Some e =>
        (Normal tt,
         {| view := {| users := users v; infractions := infractions v;
                       loading := false; searchTerm := searchTerm v;
                       selectedInfraction := selectedInfraction v;
                       isInfractionModalOpen := isInfractionModalOpen v |};
            effects := [ConsoleError "Error loading data:" e;
                        ToastError "Error al cargar los datos"] |})
    | None =>
        let loaded :=
          match profiles_select be with
          | Resolves r => orEmpty (data r)
          | Rejects _ => []
          end in
        match failure (infractions_select be) with
        | Some e =>
            (Normal tt,
             {| view := {| users := loaded; infractions := infractions v;
                           loading := false; searchTerm := searchTerm v;
                           selectedInfraction := selectedInfraction v;
                           isInfractionModalOpen := isInfractionModalOpen v |};
                effects := [ConsoleError "Error loading data:" e;
                            ToastError "Error al cargar los datos"] |})
        | None =>
            (Normal tt,
             {| view := {| users := loaded;
                           infractions :=
                             match infractions_select be with
                             | Resolves r => orEmpty (data r)
                             | Rejects _ => []
                             end;
                           loading := false; searchTerm := searchTerm v;
                           selectedInfraction := selectedInfraction v;
                           isInfractionModalOpen := isInfractionModalOpen v |};
                effects := [] |})
        end
    end.
Proof.
  unfold run, loadData, tryFinally, tryCatch, bind.
  destruct (profiles_select be) as [[d [e|]]|e]; try reflexivity.
  destruct (infractions_select be) as [[d' [e'|]]|e']; reflexivity.
Qed.

(** ** Data loader *)

(** X1: when both queries succeed the loader replaces both lists
    wholesale by the loaded rows (a null payload counts as the empty
    list), clears the loading flag, keeps the search term, the selected
    infraction and the modal flag, and shows nothing. *)
Theorem X1_load_success_replaces_wholesale
    (be : Backend) (v : View)
    (d : option (list User)) (d' : option (list Infraction)) :
  succeeds (profiles_select be) d ->
  succeeds (infractions_select be) d' ->
  let r := run (loadData be) v in
  users (finalView r) = match d with Some l => l | None => [] end
  /\ infractions (finalView r) = match d' with Some l => l | None => [] end
  /\ loading (finalView r) = false
  /\ searchTerm (finalView r) = searchTerm v
  /\ selectedInfraction (finalView r) = selectedInfraction v
  /\ isInfractionModalOpen (finalView r) = isInfractionModalOpen v
  /\ shown r = [].
Proof.
  intros Hu Hi r. subst r. rewrite loadData_from.
  unfold succeeds in Hu, Hi. rewrite Hu, Hi. simpl.
  unfold finalView, shown; simpl. repeat split.
Qed.

Lemma X1_load_success_witness :
  succeeds (profiles_select happyBackend) (Some [ana; root])
  /\ succeeds (infractions_select happyBackend) (Some [report_a])
  /\ users (finalView (run (loadData happyBackend) initialView)) = [ana; root].
Proof.
  split; [reflexivity|]. split; [reflexivity|].
  exact (proj1 (X1_load_success_replaces_wholesale happyBackend initialView
                  (Some [ana; root]) (Some [report_a]) eq_refl eq_refl)).
Defined.

(** X2: the loader reports exactly the first failure: the effects are
    the console line and the error toast carrying the error of the
    profiles query when that one fails, else those for the error of the
    infractions query when that one fails, else nothing.  It never
    shows a success toast and never navigates. *)
Theorem X2_load_reports_first_failure (be : Backend) (v : View) :
  shown (run (loadData be) v) =
    match failure (profiles_select be), failure (infractions_select be) with
    | Some e, _ | None, Some e =>
        [ConsoleError "Error loading data:" e;
         ToastError "Error al cargar los datos"]
    | None, None => []
    end.
Proof.
  rewrite loadData_from.
  destruct (failure (profiles_select be)); [reflexivity|].
  destruct (failure (infractions_select be)); reflexivity.
Qed.

(** ** Access guard *)

(** X3: the guard never changes the view.  When one of its two backend
    calls rejects, the rejection escapes the guard and nothing is shown:
    no toast and no navigation.  Otherwise the guard completes, and it
    stays silent exactly for an admin session. *)
Theorem X3_guard_rejection_and_silence (be : Backend) (v : View) :
  let r := run (checkAdminAccess be) v in
  finalView r = v
  /\ (guardRejects be -> (exists e, fst r = Thrown e) /\ shown r = [])
  /\ (~ guardRejects be -> fst r = Normal tt)
  /\ (shown r = [] <-> guardRejects be \/ sessionIsAdmin be).
Proof.
  intros r. subst r.
  unfold run, checkAdminAccess, bind, shown, finalView, guardRejects, sessionIsAdmin.
  destruct (auth_getUser be) as [[user|]|e] eqn:Eu; simpl.
  - destruct (profiles_select_user_type be (auth_id user)) as [reply|e] eqn:Ep; simpl.
    + destruct reply as [[[[| |]]|] err]; simpl;
        (split; [reflexivity|]); (split; [intros []|]);
        (split; [reflexivity|]); split; try discriminate;
        try (intros _; right; eexists; eexists; split; [reflexivity|];
             split; [exact Ep | reflexivity]);
        try reflexivity;
        intros [[] | [u [rp [Hu [Hp Hd]]]]];
        injection Hu as <-; rewrite Ep in Hp; injection Hp as <-;
        discriminate.
    + split; [reflexivity|]. split; [intros _; split; [now exists e | reflexivity]|].
      split; [intros H; now elim H|]. split; [auto | reflexivity].
  - split; [reflexivity|]. split; [intros []|]. split; [reflexivity|].
    split; [discriminate|]. intros [[] | [u [rp [Hu _]]]]. discriminate.
  - split; [reflexivity|]. split; [intros _; split; [now exists e | reflexivity]|].
    split; [intros H; now elim H|]. split; [auto | reflexivity].
Qed.

Lemma X3_guard_rejection_witness :
  guardRejects rejectingBackend
  /\ shown (run (checkAdminAccess rejectingBackend) loadedView) = [].
Proof.
  split; [exact I|].
  exact (proj2 (proj1 (proj2 (X3_guard_rejection_and_silence rejectingBackend loadedView)) I)).
Defined.

(** ** Write actions *)

(** X4: both write actions always return normally, whatever the backend
    answers.  Each shows exactly its success toast when the update did
    not fail, and otherwise logs the very error the backend gave and
    shows its error toast; neither ever navigates. *)
Theorem X4_write_actions_outcome
    (be : Backend) (rendered cur : View) (U I : string) :
  let rb := run (handleBlockUser be rendered U) cur in
  let rr := run (handleResolveInfraction be rendered I) cur in
  fst rb = Normal tt
  /\ fst rr = Normal tt
  /\ shown rb =
       match failure (profiles_update_status be inactive U) with
       | None => [ToastSuccess "Usuario bloqueado exitosamente"]
       | Some e => [ConsoleError "Error blocking user:" e;
                    ToastError "Error al bloquear el usuario"]
       end
  /\ shown rr =
       match failure (infractions_update_status be resolved I) with
       | None => [ToastSuccess "Infracción resuelta exitosamente"]
       | Some e => [ConsoleError "Error resolving infraction:" e;
                    ToastError "Error al resolver la infracción"]
       end.
Proof.
  intros rb rr. subst rb rr.
  rewrite handleBlockUser_from, handleResolveInfraction_from.
  destruct (failure (profiles_update_status be inactive U));
    destruct (failure (infractions_update_status be resolved I));
    repeat split.
Qed.

(** ** How blocks compose *)

Lemma blockPatch_idem (U : string) (u : User) :
  blockPatch U (blockPatch U u) = blockPatch U u.
Proof.
  unfold blockPatch. destruct (String.eqb (id u) U) eqn:E; simpl; rewrite E; reflexivity.
Qed.

Lemma blockPatch_comm (U1 U2 : string) (u : User) :
  blockPatch U1 (blockPatch U2 u) = blockPatch U2 (blockPatch U1 u).
Proof.
  unfold blockPatch.
  destruct (String.eqb (id u) U1) eqn:E1, (String.eqb (id u) U2) eqn:E2;
    simpl; rewrite ?E1, ?E2; reflexivity.
Qed.

Lemma blockPatch_other (U : string) (u : User) :
  id u <> U -> blockPatch U u = u.
Proof. intros H. unfold blockPatch. apply String.eqb_neq in H. now rewrite H. Qed.

Lemma after_block (be : Backend) (rendered cur : View) (U : string) (d : option unit) :
  succeeds (profiles_update_status be inactive U) d ->
  after (handleBlockUser be rendered U) cur =
    {| users := map (blockPatch U) (users rendered);
       infractions := infractions cur; loading := loading cur;
       searchTerm := searchTerm cur;
       selectedInfraction := selectedInfraction cur;
       isInfractionModalOpen := isInfractionModalOpen cur |}.
Proof.
  intros H. unfold after. rewrite handleBlockUser_from.
  now rewrite (succeeds_failure _ _ H).
Qed.

Lemma after_resolve (be : Backend) (rendered cur : View) (I : string) (d : option unit) :
  succeeds (infractions_update_status be resolved I) d ->
  after (handleResolveInfraction be rendered I) cur =
    {| users := users cur;
       infractions := map (resolvePatch I) (infractions rendered);
       loading := loading cur; searchTerm := searchTerm cur;
       selectedInfraction := selectedInfraction cur;
       isInfractionModalOpen := false |}.
Proof.
  intros H. unfold after. rewrite handleResolveInfraction_from.
  now rewrite (succeeds_failure _ _ H).
Qed.

(** X5: blocking is idempotent on the local state: once a block of [U]
    has succeeded, a second successful block of [U], issued from the
    re-rendered page, leaves the whole view as it is. *)
Theorem X5_block_idempotent (be : Backend) (v : View) (U : string) (d : option unit) :
  succeeds (profiles_update_status be inactive U) d ->
  let v1 := after (handleBlockUser be v U) v in
  after (handleBlockUser be v1 U) v1 = v1.
Proof.
  intros H v1. subst v1.
  repeat rewrite (after_block be _ _ U d H). simpl.
  f_equal. rewrite map_map. apply map_ext. intros u. apply blockPatch_idem.
Qed.

Lemma X5_block_idempotent_witness :
  succeeds (profiles_update_status happyBackend inactive "1") None
  /\ after (handleBlockUser happyBackend
              (after (handleBlockUser happyBackend loadedView "1") loadedView) "1")
           (after (handleBlockUser happyBackend loadedView "1") loadedView)
     = after (handleBlockUser happyBackend loadedView "1") loadedView.
Proof.
  split; [reflexivity|].
  exact (X5_block_idempotent happyBackend loadedView "1" None eq_refl).
Defined.

(** X6: two successful blocks, each issued from the page as re-rendered
    after the previous one, give the same view in either order. *)
Theorem X6_blocks_commute
    (be : Backend) (v : View) (U1 U2 : string) (d1 d2 : option unit) :
  succeeds (profiles_update_status be inactive U1) d1 ->
  succeeds (profiles_update_status be inactive U2) d2 ->
  let v1 := after (handleBlockUser be v U1) v in
  let v2 := after (handleBlockUser be v U2) v in
  after (handleBlockUser be v1 U2) v1 = after (handleBlockUser be v2 U1) v2.
Proof.
  intros H1 H2 v1 v2. subst v1 v2.
  repeat (rewrite (after_block be _ _ U1 d1 H1)
          || rewrite (after_block be _ _ U2 d2 H2)).
  simpl. f_equal. rewrite !map_map. apply map_ext. intros u. apply blockPatch_comm.
Qed.

Lemma X6_blocks_commute_witness :
  succeeds (profiles_update_status happyBackend inactive "1") None
  /\ succeeds (profiles_update_status happyBackend inactive "4") None
  /\ after (handleBlockUser happyBackend
              (after (handleBlockUser happyBackend crowdedView "1") crowdedView) "4")
           (after (handleBlockUser happyBackend crowdedView "1") crowdedView)
     = after (handleBlockUser happyBackend
                (after (handleBlockUser happyBackend crowdedView "4") crowdedView) "1")
             (after (handleBlockUser happyBackend crowdedView "4") crowdedView).
Proof.
  split; [reflexivity|]. split; [reflexivity|].
  exact (X6_blocks_commute happyBackend crowdedView "1" "4" None None eq_refl eq_refl).
Defined.

(** X7: a block handler patches the list of the render it was created
    in, not the current one.  If two blocks created in the same render
    both succeed, the view after the second is the one the second alone
    would give: every entry whose id is not the second target is as it
    was in that render, the first target included. *)
Theorem X7_block_uses_rendered_list
    (be : Backend) (v : View) (U1 U2 : string) (d1 d2 : option unit) :
  succeeds (profiles_update_status be inactive U1) d1 ->
  succeeds (profiles_update_status be inactive U2) d2 ->
  let v1 := after (handleBlockUser be v U1) v in
  let v2 := after (handleBlockUser be v U2) v1 in
  v2 = after (handleBlockUser be v U2) v
  /\ (forall n u, nth_error (users v) n = Some u -> id u <> U2 ->
        nth_error (users v2) n = Some u).
Proof.
  intros H1 H2 v1 v2. subst v1 v2.
  repeat (rewrite (after_block be _ _ U1 d1 H1)
          || rewrite (after_block be _ _ U2 d2 H2)).
  simpl. split; [reflexivity|].
  intros n u Hn Hne. rewrite nth_error_map, Hn. simpl.
  now rewrite blockPatch_other.
Qed.

Lemma X7_block_uses_rendered_list_witness :
  succeeds (profiles_update_status happyBackend inactive "1") None
  /\ succeeds (profiles_update_status happyBackend inactive "4") None
  /\ nth_error
       (users (after (handleBlockUser happyBackend crowdedView "4")
                 (after (handleBlockUser happyBackend crowdedView "1") crowdedView)))
       0 = Some ana.
Proof.
  split; [reflexivity|]. split; [reflexivity|].
  apply (proj2 (X7_block_uses_rendered_list happyBackend crowdedView "1" "4"
                  None None eq_refl eq_refl) 0 ana eq_refl).
  discriminate.
Defined.

(** ** Write actions and the counters *)

Lemma active_after_patch (U : string) (l : list User) :
  length (filter (fun u => UserStatus_eqb (status u) active) (map (blockPatch U) l))
  + activeWithId U l
  = length (filter (fun u => UserStatus_eqb (status u) active) l).
Proof.
  unfold activeWithId, blockPatch. induction l as [|u l IH]; simpl; [reflexivity|].
  destruct (String.eqb (id u) U); simpl.
  - destruct (status u); simpl; lia.
  - destruct (status u); simpl; lia.
Qed.

Lemma pending_after_patch (I : string) (l : list Infraction) :
  length (filter (fun i => InfractionStatus_eqb (inf_status i) pending)
            (map (resolvePatch I) l))
  + pendingWithId I l
  = length (filter (fun i => InfractionStatus_eqb (inf_status i) pending) l).
Proof.
  unfold pendingWithId, resolvePatch. induction l as [|i l IH]; simpl; [reflexivity|].
  destruct (String.eqb (inf_id i) I); simpl.
  - destruct (inf_status i); simpl; lia.
  - destruct (inf_status i); simpl; lia.
Qed.

Lemma resolved_after_patch (I : string) (l : list Infraction) :
  length (filter (fun i => InfractionStatus_eqb (inf_status i) resolved)
            (map (resolvePatch I) l))
  = length (filter (fun i => InfractionStatus_eqb (inf_status i) resolved) l)
    + pendingWithId I l.
Proof.
  unfold pendingWithId, resolvePatch. induction l as [|i l IH]; simpl; [reflexivity|].
  destruct (String.eqb (inf_id i) I); simpl.
  - destruct (inf_status i); simpl; lia.
  - destruct (inf_status i); simpl; lia.
Qed.

(** X8: a successful block of [U] keeps the total-users counter and both
    infraction counters, and lowers the active-users counter by exactly
    the number of loaded entries with id [U] that were active; so the
    counter never goes up, and stays put when [U] was already inactive
    or is not loaded. *)
Theorem X8_block_and_counters (be : Backend) (v : View) (U : string) (d : option unit) :
  succeeds (profiles_update_status be inactive U) d ->
  let v' := after (handleBlockUser be v U) v in
  totalUsers (stats v') = totalUsers (stats v)
  /\ activeUsers (stats v') + activeWithId U (users v) = activeUsers (stats v)
  /\ pendingInfractions (stats v') = pendingInfractions (stats v)
  /\ resolvedInfractions (stats v') = resolvedInfractions (stats v).
Proof.
  intros H v'. subst v'. rewrite (after_block be v v U d H).
  unfold stats; simpl. split; [apply length_map|].
  split; [apply active_after_patch|]. now split.
Qed.

Lemma X8_block_and_counters_witness :
  succeeds (profiles_update_status happyBackend inactive "1") None
  /\ activeUsers (stats (after (handleBlockUser happyBackend crowdedView "1") crowdedView))
     + activeWithId "1" (users crowdedView)
     = activeUsers (stats crowdedView).
Proof.
  split; [reflexivity|].
  exact (proj1 (proj2 (X8_block_and_counters happyBackend crowdedView "1" None eq_refl))).
Defined.

(** X9: a successful resolve of [I] moves exactly the loaded pending
    entries with id [I] from the pending counter to the resolved counter
    and keeps both user counters. *)
Theorem X9_resolve_and_counters (be : Backend) (v : View) (I : string) (d : option unit) :
  succeeds (infractions_update_status be resolved I) d ->
  let v' := after (handleResolveInfraction be v I) v in
  pendingInfractions (stats v') + pendingWithId I (infractions v)
    = pendingInfractions (stats v)
  /\ resolvedInfractions (stats v')
     = resolvedInfractions (stats v) + pendingWithId I (infractions v)
  /\ totalUsers (stats v') = totalUsers (stats v)
  /\ activeUsers (stats v') = activeUsers (stats v).
Proof.
  intros H v'. subst v'. rewrite (after_resolve be v v I d H).
  unfold stats; simpl. split; [apply pending_after_patch|].
  split; [apply resolved_after_patch|]. now split.
Qed.

Lemma X9_resolve_and_counters_witness :
  succeeds (infractions_update_status happyBackend resolved "a") None
  /\ resolvedInfractions
       (stats (after (handleResolveInfraction happyBackend loadedView "a") loadedView))
     = resolvedInfractions (stats loadedView) + pendingWithId "a" (infractions loadedView).
Proof.
  split; [reflexivity|].
  exact (proj1 (proj2 (X9_resolve_and_counters happyBackend loadedView "a" None eq_refl))).
Defined.

(** ** Write actions and the tables *)

Lemma filter_map_swap {A} (f : A -> bool) (g : A -> A) (l : list A) :
  (forall x, f (g x) = f x) ->
  filter f (map g l) = map g (filter f l).
Proof.
  intros H. induction l as [|x l IH]; simpl; [reflexivity|].
  rewrite H. destruct (f x); simpl; now rewrite IH.
Qed.

Lemma filteredUsers_blockPatch
    (toLowerCase : string -> string) (U q : string) (l : list User) :
  filteredUsers toLowerCase (map (blockPatch U) l) q
  = map (blockPatch U) (filteredUsers toLowerCase l q).
Proof.
  unfold filteredUsers. apply filter_map_swap.
  intros u. unfold matchesSearch, blockPatch.
  now destruct (String.eqb (id u) U).
Qed.

Lemma NoDup_map_inj {A B} (f : A -> B) (l : list A) (x y : A) :
  NoDup (map f l) -> In x l -> In y l -> f x = f y -> x = y.
Proof.
  induction l as [|a l IH]; simpl; intros Hnd Hx Hy E; [contradiction|].
  inversion Hnd as [|? ? Hnot Hnd']; subst.
  destruct Hx as [-> | Hx], Hy as [-> | Hy]; auto.
  - elim Hnot. rewrite E. now apply in_map.
  - elim Hnot. rewrite <- E. now apply in_map.
Qed.

(** X10: after a successful block of [U] the user table, under the same
    search term, has the same rows in the same order: rows of other
    users are identical, and a row of [U] keeps its name, email, role
    and date cells, shows the "Inactivo" badge and no longer offers the
    block action. *)
Theorem X10_table_after_block
    (toLowerCase toLocaleDateString : string -> string)
    (be : Backend) (v : View) (U : string) (d : option unit) :
  succeeds (profiles_update_status be inactive U) d ->
  let t := userTable toLowerCase toLocaleDateString v in
  let t' := userTable toLowerCase toLocaleDateString
              (after (handleBlockUser be v U) v) in
  map row_key t' = map row_key t
  /\ (forall n r, nth_error t n = Some r ->
        exists r', nth_error t' n = Some r'
          /\ (row_key r <> U -> r' = r)
          /\ (row_key r = U ->
              block_action r' = None
              /\ status_badge r' = (destructive, "Inactivo")
              /\ name_cell r' = name_cell r /\ email_cell r' = email_cell r
              /\ type_badge r' = type_badge r /\ date_cell r' = date_cell r)).
Proof.
  intros H t t'. subst t t'. rewrite (after_block be v v U d H).
  unfold userTable; simpl. rewrite filteredUsers_blockPatch, !map_map. split.
  - apply map_ext. intros u. unfold blockPatch.
    now destruct (String.eqb (id u) U).
  - intros n r Hn. rewrite nth_error_map in *.
    destruct (nth_error (filteredUsers toLowerCase (users v) (searchTerm v)) n)
      as [u|]; [|discriminate].
    simpl in *. injection Hn as <-. eexists; split; [reflexivity|].
    unfold blockPatch; simpl. split.
    + intros Hne. apply String.eqb_neq in Hne. now rewrite Hne.
    + intros E. apply String.eqb_eq in E. rewrite E. simpl. repeat split.
Qed.

Lemma X10_table_after_block_witness :
  succeeds (profiles_update_status happyBackend inactive "1") None
  /\ map (@row_key)
       (userTable JS.asciiLower (fun s => s)
          (after (handleBlockUser happyBackend crowdedView "1") crowdedView))
     = map (@row_key) (userTable JS.asciiLower (fun s => s) crowdedView).
Proof.
  split; [reflexivity|].
  exact (proj1 (X10_table_after_block JS.asciiLower (fun s => s)
                  happyBackend crowdedView "1" None eq_refl)).
Defined.

(** X11: when the loaded ids are distinct, carrying out any block action
    the user table offers never changes the entry of an admin. *)
Theorem X11_offered_block_spares_admins
    (toLowerCase toLocaleDateString : string -> string)
    (be : Backend) (v : View) (r : UserRow) (a : BlockAction) (d : option unit) :
  NoDup (map id (users v)) ->
  In r (userTable toLowerCase toLocaleDateString v) ->
  block_action r = Some a ->
  succeeds (profiles_update_status be inactive (blocks a)) d ->
  forall n u, nth_error (users v) n = Some u -> user_type u = admin ->
    nth_error (users (after (handleBlockUser be v (blocks a)) v)) n = Some u.
Proof.
  intros Hnd Hr Ha H n u Hn Hadmin.
  rewrite (after_block be v v _ d H). simpl.
  rewrite nth_error_map, Hn. simpl. f_equal. apply blockPatch_other.
  unfold userTable, filteredUsers in Hr.
  apply in_map_iff in Hr. destruct Hr as [u0 [<- Hu0]].
  apply filter_In in Hu0. destruct Hu0 as [Hu0 _].
  unfold renderUserRow in Ha; simpl in Ha.
  destruct (UserStatus_eqb (status u0) active
            && negb (UserType_eqb (user_type u0) admin)) eqn:Hc; [|discriminate].
  injection Ha as <-. simpl. intros E.
  assert (u = u0) as ->
    by (apply (NoDup_map_inj id (users v)); eauto using nth_error_In).
  rewrite Hadmin in Hc. simpl in Hc. rewrite andb_false_r in Hc. discriminate.
Qed.

Lemma X11_offered_block_witness :
  NoDup (map id (users crowdedView))
  /\ In (renderUserRow (fun s => s) ana)
        (userTable JS.asciiLower (fun s => s) crowdedView)
  /\ nth_error (users (after (handleBlockUser happyBackend crowdedView "1") crowdedView)) 2
     = Some root.
Proof.
  assert (Hnd : NoDup (map id (users crowdedView))).
  { simpl. repeat constructor; simpl; intuition discriminate. }
  assert (Hin : In (renderUserRow (fun s => s) ana)
                  (userTable JS.asciiLower (fun s => s) crowdedView))
    by (left; reflexivity).
  split; [exact Hnd|]. split; [exact Hin|].
  exact (X11_offered_block_spares_admins JS.asciiLower (fun s => s) happyBackend
           crowdedView _ {| named := Some "Ana Ruiz"; blocks := "1" |} None
           Hnd Hin eq_refl eq_refl 2 root eq_refl eq_refl).
Defined.

(** ** Detail modal *)

Lemma after_view_details (i : Infraction) (v : View) :
  after (handleViewInfractionDetails i) v =
    {| users := users v; infractions := infractions v; loading := loading v;
       searchTerm := searchTerm v; selectedInfraction := Some i;
       isInfractionModalOpen := true |}.
Proof. reflexivity. Qed.

Lemma resolvePatch_resolved (I : string) (i : Infraction) :
  inf_id i = I -> inf_status (resolvePatch I i) = resolved.
Proof.
  intros E. unfold resolvePatch. apply String.eqb_eq in E. now rewrite E.
Qed.

Lemma resolvePatch_id (I : string) (i : Infraction) :
  inf_id (resolvePatch I i) = inf_id i.
Proof. unfold resolvePatch. now destruct (String.eqb (inf_id i) I). Qed.

(** X12: the detail modal has a body exactly when an infraction is
    selected, and the body offers the resolve action exactly when the
    selected infraction is pending; the action then carries the id of
    the selected infraction. *)
Theorem X12_resolve_action_visibility
    (toLocaleString : string -> string) (v : View) :
  (modal_content (infractionModal toLocaleString v) = None
   <-> selectedInfraction v = None)
  /\ (forall I,
        (exists c, modal_content (infractionModal toLocaleString v) = Some c
                   /\ resolve_action c = Some I)
        <-> (exists i, selectedInfraction v = Some i
                       /\ inf_status i = pending /\ inf_id i = I)).
Proof.
  unfold infractionModal; simpl.
  destruct (selectedInfraction v) as [i|]; simpl; split.
  - split; discriminate.
  - intros I. split.
    + intros [c [Hc Ha]]. injection Hc as <-. simpl in Ha. exists i.
      destruct (inf_status i); simpl in Ha; [|discriminate].
      injection Ha as <-. repeat split.
    + intros [i' [Hi [Hp <-]]]. injection Hi as <-.
      eexists; split; [reflexivity|]. simpl. now rewrite Hp.
  - split; reflexivity.
  - intros I. split.
    + intros [c [Hc _]]. discriminate.
    + intros [i [Hi _]]. discriminate.
Qed.

(** X13: resolving from the modal does not refresh the selection.  After
    "Ver Detalles" on [i] the modal is open on [i]; after a successful
    resolve of [i] issued from that modal it is closed, every loaded
    infraction with the id of [i] is resolved, the users are untouched,
    and the selected infraction is still the record [i] as it was
    opened. *)
Theorem X13_resolve_keeps_selection
    (be : Backend) (v : View) (i : Infraction) (d : option unit) :
  succeeds (infractions_update_status be resolved (inf_id i)) d ->
  let v1 := after (handleViewInfractionDetails i) v in
  let v2 := after (handleResolveInfraction be v1 (inf_id i)) v1 in
  isInfractionModalOpen v1 = true /\ selectedInfraction v1 = Some i
  /\ isInfractionModalOpen v2 = false /\ selectedInfraction v2 = Some i
  /\ (forall j, In j (infractions v2) -> inf_id j = inf_id i ->
        inf_status j = resolved)
  /\ users v2 = users v.
Proof.
  intros H v1 v2. subst v1 v2.
  rewrite (after_resolve be _ _ _ d H), after_view_details. simpl.
  repeat split.
  intros j Hj E. apply in_map_iff in Hj. destruct Hj as [j0 [<- _]].
  apply resolvePatch_resolved. now rewrite resolvePatch_id in E.
Qed.

Lemma X13_resolve_keeps_selection_witness :
  succeeds (infractions_update_status happyBackend resolved (inf_id report_a)) None
  /\ selectedInfraction
       (after (handleResolveInfraction happyBackend
                 (after (handleViewInfractionDetails report_a) crowdedView)
                 (inf_id report_a))
              (after (handleViewInfractionDetails report_a) crowdedView))
     = Some report_a.
Proof.
  split; [reflexivity|].
  exact (proj1 (proj2 (proj2 (proj2
    (X13_resolve_keeps_selection happyBackend crowdedView report_a None eq_refl))))).
Defined.

(** X14: after a successful resolve of [I], pressing "Ver Detalles" on
    any row of the infraction table whose key is [I] opens the modal on
    a resolved record: the badge reads "Resuelta" and the resolve action
    is not offered again. *)
Theorem X14_resolved_row_offers_no_resolve
    (toLocaleDateString toLocaleString : string -> string)
    (be : Backend) (v : View) (I : string) (d : option unit) (r : InfractionRow) :
  succeeds (infractions_update_status be resolved I) d ->
  let v' := after (handleResolveInfraction be v I) v in
  In r (infractionTable toLocaleDateString v') ->
  irow_key r = I ->
  let m := infractionModal toLocaleString
             (after (handleViewInfractionDetails (details_action r)) v') in
  modal_open m = true
  /\ exists c, modal_content m = Some c
               /\ resolve_action c = None
               /\ m_badge c = (default, "Resuelta").
Proof.
  intros H v' Hr Hk m. subst v' m.
  rewrite (after_resolve be v v I d H) in *.
  unfold infractionTable in Hr; simpl in Hr.
  rewrite map_map in Hr. apply in_map_iff in Hr. destruct Hr as [i [<- _]].
  simpl in Hk. rewrite resolvePatch_id in Hk.
  rewrite after_view_details. unfold infractionModal; simpl.
  split; [reflexivity|]. eexists; split; [reflexivity|].
  unfold renderModalContent, statusBadge; simpl.
  now rewrite (resolvePatch_resolved I i Hk).
Qed.

Lemma X14_resolved_row_witness :
  succeeds (infractions_update_status happyBackend resolved "a") None
  /\ modal_open
       (infractionModal (fun s => s)
          (after (handleViewInfractionDetails
                    (details_action
                       (renderInfractionRow (fun s => s) (resolvePatch "a" report_a))))
                 (after (handleResolveInfraction happyBackend loadedView "a") loadedView)))
     = true.
Proof.
  split; [reflexivity|].
  exact (proj1 (X14_resolved_row_offers_no_resolve (fun s => s) (fun s => s)
                  happyBackend loadedView "a" None
                  (renderInfractionRow (fun s => s) (resolvePatch "a" report_a))
                  eq_refl (or_introl eq_refl) eq_refl)).
Defined.

(** ** The page as a whole *)

Lemma block_rows_le_active (m : User -> bool) (fmt : string -> string) (l : list User) :
  length (filter offersBlock (map (renderUserRow fmt) (filter m l)))
  <= length (filter (fun u => UserStatus_eqb (status u) active) l).
Proof.
  induction l as [|u l IH]; simpl; [lia|].
  destruct (m u); simpl; [unfold offersBlock at 1; simpl|];
    destruct (status u), (user_type u); simpl; lia.
Qed.

(** X15: the page shows the spinner before the loader has run, and the
    dashboard once it has run, whatever the backend answered.  If the
    profiles query fails on mount, that dashboard is empty: all four
    counters are zero, both tables have no rows and the modal is closed
    with no body. *)
Theorem X15_spinner_until_loaded
    (toLowerCase toLocaleDateString toLocaleString : string -> string)
    (be : Backend) (v : View) :
  Admin toLowerCase toLocaleDateString toLocaleString initialView = Spinner
  /\ Admin toLowerCase toLocaleDateString toLocaleString (after (loadData be) v)
     <> Spinner
  /\ (fails (profiles_select be) ->
      Admin toLowerCase toLocaleDateString toLocaleString
        (after (loadData be) initialView)
      = Dashboard
          {| cards := {| totalUsers := 0; activeUsers := 0;
                         pendingInfractions := 0; resolvedInfractions := 0 |};
             search_box := "";
             user_rows := [];
             infraction_rows := [];
             modal := {| modal_open := false; modal_content := None |} |}).
Proof.
  split; [reflexivity|]. unfold after. rewrite !loadData_from. split.
  - destruct (failure (profiles_select be)); [discriminate|].
    destruct (failure (infractions_select be)); discriminate.
  - intros Hf. apply fails_failure in Hf.
    destruct (failure (profiles_select be)); [reflexivity | now elim Hf].
Qed.

Lemma X15_spinner_witness :
  fails (profiles_select rejectingBackend)
  /\ Admin JS.asciiLower (fun s => s) (fun s => s)
       (after (loadData rejectingBackend) initialView)
     <> Spinner.
Proof.
  split; [exact I|].
  exact (proj1 (proj2 (X15_spinner_until_loaded JS.asciiLower (fun s => s) (fun s => s)
                         rejectingBackend initialView))).
Defined.

(** X16: on every dashboard the tables agree with the counter cards: the
    user table has at most total-users rows, at most active-users of
    them offer the block action, and the infraction table has exactly
    pending + resolved rows, whatever the search term. *)
Theorem X16_tables_within_counters
    (toLowerCase toLocaleDateString toLocaleString : string -> string)
    (v : View) (d : DashboardView) :
  Admin toLowerCase toLocaleDateString toLocaleString v = Dashboard d ->
  length (user_rows d) <= totalUsers (cards d)
  /\ length (filter offersBlock (user_rows d)) <= activeUsers (cards d)
  /\ length (infraction_rows d)
     = pendingInfractions (cards d) + resolvedInfractions (cards d).
Proof.
  unfold Admin. destruct (loading v); [discriminate|].
  intros E. injection E as <-. simpl. split; [|split].
  - unfold userTable, filteredUsers. rewrite length_map. apply filter_length_le.
  - unfold userTable, filteredUsers. apply block_rows_le_active.
  - unfold infractionTable. rewrite length_map. symmetry.
    apply filter_split_length. intros i. now destruct (inf_status i).
Qed.

Lemma X16_tables_within_counters_witness :
  Admin JS.asciiLower (fun s => s) (fun s => s) crowdedView
  = Dashboard
      {| cards := stats crowdedView;
         search_box := searchTerm crowdedView;
         user_rows := userTable JS.asciiLower (fun s => s) crowdedView;
         infraction_rows := infractionTable (fun s => s) crowdedView;
         modal := infractionModal (fun s => s) crowdedView |}
  /\ length (userTable JS.asciiLower (fun s => s) crowdedView)
     <= totalUsers (stats crowdedView).
Proof.
  split; [reflexivity|].
  exact (proj1 (X16_tables_within_counters JS.asciiLower (fun s => s) (fun s => s)
                  crowdedView _ eq_refl)).
Defined.

(** ** Search: edge cases *)

Lemma includes_refl (s : string) : JS.includes s s = true.
Proof.
  apply includes_iff. exists "", "". simpl.
  induction s as [|c s IH]; simpl; [reflexivity | now rewrite <- IH].
Qed.

Lemma includes_in_empty (t : string) : t <> "" -> JS.includes "" t = false.
Proof. destruct t; [now intros H; elim H | reflexivity]. Qed.

(** X17: a profile without a display name (null or the empty string) is
    found by a query that does not lower-case to the empty string only
    through its email: it is listed exactly when it is loaded and its
    email contains the query. *)
Theorem X17_nameless_found_by_email_only
    (toLowerCase : string -> string) (users : list User) (q : string) (u : User) :
  toLowerCase "" = "" ->
  toLowerCase q <> "" ->
  full_name u = None \/ full_name u = Some "" ->
  (In u (filteredUsers toLowerCase users q)
   <-> In u users /\ contains_ci toLowerCase (email u) q).
Proof.
  intros E Hq Hname. unfold filteredUsers. rewrite filter_In.
  unfold matchesSearch. rewrite truthy_or.
  rewrite <- (optChain_includes_iff toLowerCase (email u) q).
  destruct Hname as [-> | ->]; simpl.
  - reflexivity.
  - rewrite E, (includes_in_empty _ Hq). reflexivity.
Qed.

Lemma X17_nameless_witness :
  JS.asciiLower "" = ""
  /\ JS.asciiLower "Bruno" <> ""
  /\ (full_name bruno = None \/ full_name bruno = Some "")
  /\ (In bruno (filteredUsers JS.asciiLower [ana; bruno; root] "Bruno")
      <-> In bruno [ana; bruno; root] /\ contains_ci JS.asciiLower (email bruno) "Bruno").
Proof.
  assert (Hq : JS.asciiLower "Bruno" <> "") by discriminate.
  split; [reflexivity|]. split; [exact Hq|]. split; [right; reflexivity|].
  exact (X17_nameless_found_by_email_only JS.asciiLower [ana; bruno; root] "Bruno" bruno
           eq_refl Hq (or_intror eq_refl)).
Defined.

(** X20: typing a loaded profile's display name or email, in any
    letter case, always lists that profile. *)
Theorem X20_search_finds_own_name_or_email
    (toLowerCase : string -> string) (users : list User) (q s : string) (u : User) :
  In u users ->
  full_name u = Some s \/ email u = Some s ->
  toLowerCase q = toLowerCase s ->
  In u (filteredUsers toLowerCase users q).
Proof.
  intros Hin Hs Hq. unfold filteredUsers. apply filter_In. split; [assumption|].
  unfold matchesSearch. rewrite truthy_or, Hq. apply orb_true_iff.
  destruct Hs as [-> | ->]; [left | right]; simpl; apply includes_refl.
Qed.

Lemma X20_search_witness :
  In root [ana; root]
  /\ JS.asciiLower "ROOT@Example.com" = JS.asciiLower "root@example.com"
  /\ In root (filteredUsers JS.asciiLower [ana; root] "ROOT@Example.com").
Proof.
  assert (Hin : In root [ana; root]) by (right; left; reflexivity).
  split; [exact Hin|]. split; [reflexivity|].
  exact (X20_search_finds_own_name_or_email JS.asciiLower [ana; root]
           "ROOT@Example.com" "root@example.com" root
           Hin (or_intror eq_refl) eq_refl).
Defined.

(** ** Reloading, and the infraction table after a resolve *)

(** X18: the loader replaces and never merges: running it a second time
    against the same backend answers leaves the view exactly as the
    first run left it, in every outcome. *)
Theorem X18_reload_is_idempotent (be : Backend) (v : View) :
  after (loadData be) (after (loadData be) v) = after (loadData be) v.
Proof.
  unfold after. rewrite !loadData_from.
  destruct (failure (profiles_select be)); [reflexivity|].
  destruct (failure (infractions_select be)); reflexivity.
Qed.

(** X19: after a successful resolve of [I] the infraction table has the
    same rows in the same order: rows with another key are identical,
    and a row with key [I] keeps its cells, shows the "Resuelta" badge
    and hands the resolved record to "Ver Detalles". *)
Theorem X19_infraction_table_after_resolve
    (toLocaleDateString : string -> string)
    (be : Backend) (v : View) (I : string) (d : option unit) :
  succeeds (infractions_update_status be resolved I) d ->
  let t := infractionTable toLocaleDateString v in
  let t' := infractionTable toLocaleDateString
              (after (handleResolveInfraction be v I) v) in
  map irow_key t' = map irow_key t
  /\ (forall n r, nth_error t n = Some r ->
        exists r', nth_error t' n = Some r'
          /\ (irow_key r <> I -> r' = r)
          /\ (irow_key r = I ->
              irow_badge r' = (default, "Resuelta")
              /\ reported_cell r' = reported_cell r
              /\ reporter_cell r' = reporter_cell r
              /\ description_cell r' = description_cell r
              /\ irow_date r' = irow_date r
              /\ details_action r' = with_inf_status (details_action r) resolved)).
Proof.
  intros H t t'. subst t t'. rewrite (after_resolve be v v I d H).
  unfold infractionTable; simpl. rewrite !map_map. split.
  - apply map_ext. intros i. simpl. apply resolvePatch_id.
  - intros n r Hn. rewrite nth_error_map in *.
    destruct (nth_error (infractions v) n) as [i|]; [|discriminate].
    simpl in *. injection Hn as <-. eexists; split; [reflexivity|].
    unfold resolvePatch; simpl. split.
    + intros Hne. apply String.eqb_neq in Hne. now rewrite Hne.
    + intros E. apply String.eqb_eq in E. rewrite E. simpl. repeat split.
Qed.

Lemma X19_infraction_table_witness :
  succeeds (infractions_update_status happyBackend resolved "a") None
  /\ map (@irow_key)
       (infractionTable (fun s => s)
          (after (handleResolveInfraction happyBackend loadedView "a") loadedView))
     = map (@irow_key) (infractionTable (fun s => s) loadedView).
Proof.
  split; [reflexivity|].
  exact (proj1 (X19_infraction_table_after_resolve (fun s => s)
                  happyBackend loadedView "a" None eq_refl)).
Defined.
